(** * pypdfium2: the document helper ([src/pypdfium2/_helpers/document.py])

    A shallow embedding of [PdfDocument] and of the pieces of its
    environment that the helper talks to: the Python objects it mutates
    (byte buffers, loader data), the native PDFium handles it owns, the
    logger, and the process pool used for concurrent rendering.

    Python code that raises is modelled in a state-and-exception monad
    over an explicit [World]; the state survives an exception, so that
    what a failing call leaves behind can be observed. *)

From Stdlib.Strings Require Import Byte.
From stdpp Require Import gmap strings list fin_maps fin_sets.

Set Default Proof Using "Type".
Local Open Scope Z_scope.

(** ** Plain data *)

Definition bytes := list byte.

(** A C double as handed to the binding: the helper only stores and
    forwards page sizes, so the 64-bit pattern is all that is needed. *)
Definition float := Z.

(** Python exceptions that the helper raises or lets through. *)
Inductive exn :=
  | ValueError
  | IndexError
  | TypeError
  | FileNotFoundError
  | AttributeError
  | AssertionError
  | PdfiumError
  | NativeFault.   (* a native call on a handle that is no longer live *)

#[global] Instance exn_eq_dec : EqDecision exn.
Proof. solve_decision. Defined.

(** [misc.FileAccess], and what a caller may pass in its place. *)
Inductive FileAccess := NATIVE | BUFFER | BYTES.

Inductive FileAccessArg :=
  | FA (fa : FileAccess)
  | FA_other.        (* not an instance of FileAccess *)

(** What [PdfDocument.__init__] can be given as [input_data]. *)
Inductive Input :=
  | InStr (path : string)
  | InBytes (data : bytes)
  | InBuffer (buf : nat)        (* an object with seek/tell/read/readinto *)
  | InHandle (pdf : nat)        (* a raw FPDF_DOCUMENT *)
  | InOther.                    (* anything else, e.g. an int *)

(** A byte buffer object, with the semantics of [io.BytesIO] and of
    binary file objects: a cursor that [read] and [write] advance. *)
Record Buffer := mkBuffer {
  b_data : bytes;
  b_pos : nat;
  b_closed : bool;
}.

(** ** The bookmark tree of a native document

    PDFium exposes the outline through first-child and next-sibling
    pointers.  Nodes are identified by their address; nothing forces the
    pointers of an ill-formed file to form a tree. *)
Record BookmarkInfo := mkInfo {
  bi_title : string;            (* FPDFBookmark_GetTitle, decoded *)
  bi_count : Z;                 (* FPDFBookmark_GetCount *)
  bi_dest_page : Z;             (* FPDFDest_GetDestPageIndex, -1 if none *)
  bi_view_mode : Z;             (* FPDFDest_GetView *)
  bi_n_params : nat;            (* number of view parameters in use *)
  bi_view_pos : list float;     (* the four FS_FLOAT slots *)
}.

Record BookmarkGraph := mkGraph {
  bm_root : option nat;         (* FPDFBookmark_GetFirstChild(pdf, NULL) *)
  bm_child : gmap nat nat;      (* FPDFBookmark_GetFirstChild *)
  bm_next : gmap nat nat;       (* FPDFBookmark_GetNextSibling *)
  bm_info : nat → BookmarkInfo;
}.

Record PageBox := mkPage {
  pg_width : float;
  pg_height : float;
}.

(** A parsed document as the engine holds it. *)
Record EDoc := mkEDoc {
  d_pages : list PageBox;
  d_outline : BookmarkGraph;
}.

(** ** Observable effects *)

Inductive Event :=
  | Warning (msg : string)                     (* logger.warning *)
  | SaveCall (pdf : nat) (version : option Z)  (* FPDF_SaveAsCopy / FPDF_SaveWithVersion *)
  | Submit (index : Z).                        (* a task handed to the process pool *)

#[global] Instance Event_eq_dec : EqDecision Event.
Proof. solve_decision. Defined.

Record World := mkWorld {
  w_files : gmap string bytes;     (* regular files, by absolute path *)
  w_buffers : gmap nat Buffer;     (* live Python buffer objects *)
  w_docs : gmap nat EDoc;          (* open FPDF_DOCUMENT handles *)
  w_pages : gmap nat (nat * nat);  (* open FPDF_PAGE handles: document, index *)
  w_ld : gset nat;                 (* loader data kept alive for a document *)
  w_log : list Event;              (* effects, oldest first *)
}.

Definition set_buffers (f : gmap nat Buffer → gmap nat Buffer) (w : World) : World :=
  mkWorld (w_files w) (f (w_buffers w)) (w_docs w) (w_pages w) (w_ld w) (w_log w).
Definition set_docs (f : gmap nat EDoc → gmap nat EDoc) (w : World) : World :=
  mkWorld (w_files w) (w_buffers w) (f (w_docs w)) (w_pages w) (w_ld w) (w_log w).
Definition set_pages (f : gmap nat (nat * nat) → gmap nat (nat * nat)) (w : World) : World :=
  mkWorld (w_files w) (w_buffers w) (w_docs w) (f (w_pages w)) (w_ld w) (w_log w).
Definition set_ld (f : gset nat → gset nat) (w : World) : World :=
  mkWorld (w_files w) (w_buffers w) (w_docs w) (w_pages w) (f (w_ld w)) (w_log w).
Definition add_event (e : Event) (w : World) : World :=
  mkWorld (w_files w) (w_buffers w) (w_docs w) (w_pages w) (w_ld w) (w_log w ++ [e]).

(** ** The monad of Python computations *)

Definition Py (A : Type) : Type := World → (exn + A) * World.

Definition ret {A} (a : A) : Py A := λ w, (inr a, w).
Definition raise {A} (e : exn) : Py A := λ w, (inl e, w).
Definition bind {A B} (m : Py A) (k : A → Py B) : Py B :=
  λ w, match m w with
       | (inr a, w') => k a w'
       | (inl e, w') => (inl e, w')
       end.
Definition get_world : Py World := λ w, (inr w, w).
Definition modify (f : World → World) : Py unit := λ w, (inr tt, f w).

Notation "'let!' x := m 'in' k" := (bind m (λ x, k))
  (at level 10, x name, m at level 100, k at level 200, only parsing).
Notation "'let!' ' pat := m 'in' k" := (bind m (λ 'pat, k))
  (at level 10, pat pattern, m at level 100, k at level 200, only parsing).
Notation "'run' m 'in' k" := (bind m (λ _, k))
  (at level 10, m at level 100, k at level 200, only parsing).

Definition warn (msg : string) : Py unit := modify (add_event (Warning msg)).

(** ** Buffer methods

    A closed buffer answers every method but [close] with ValueError.
    An id outside the store is not an object at all; asking it for a
    method is an AttributeError. *)

Definition with_buffer {A} (b : nat) (f : Buffer → Py A) : Py A :=
  let! w := get_world in
  match w_buffers w !! b with
  | None => raise AttributeError
  | Some buf => if b_closed buf then raise ValueError else f buf
  end.

Definition buf_tell (b : nat) : Py nat :=
  with_buffer b (λ buf, ret (b_pos buf)).

Definition buf_seek (b : nat) (n : nat) : Py unit :=
  with_buffer b (λ buf,
    modify (set_buffers <[b := mkBuffer (b_data buf) n false]>)).

(** [read()] with no size: everything from the cursor to the end. *)
Definition buf_read (b : nat) : Py bytes :=
  with_buffer b (λ buf,
    let pos' := Nat.max (b_pos buf) (length (b_data buf)) in
    run modify (set_buffers <[b := mkBuffer (b_data buf) pos' false]>) in
    ret (drop (b_pos buf) (b_data buf))).

(** [write(block)]: overwrite at the cursor, zero-filling a gap. *)
Definition buf_write (b : nat) (block : bytes) : Py unit :=
  with_buffer b (λ buf,
    let p := b_pos buf in
    let d := b_data buf in
    let d' := take p d ++ replicate (p - length d)%nat x00 ++ block
                ++ drop (p + length block)%nat d in
    modify (set_buffers <[b := mkBuffer d' (p + length block)%nat false]>)).

Definition buf_close (b : nat) : Py unit :=
  let! w := get_world in
  match w_buffers w !! b with
  | None => raise AttributeError
  | Some buf => modify (set_buffers <[b := mkBuffer (b_data buf) (b_pos buf) true]>)
  end.

(** [io.BytesIO()] and [open(path, "rb")]: a new buffer object. *)
Definition buf_new (data : bytes) : Py nat :=
  let! w := get_world in
  let b := fresh (dom (w_buffers w)) in
  run modify (set_buffers <[b := mkBuffer data 0 false]>) in
  ret b.

(** ** The native engine

    PDFium itself is outside the helper.  What it computes from bytes is
    taken as given: how it parses, what it writes on saving, what a page
    renders to.  The bookkeeping of handles is modelled explicitly. *)
Record Engine {Payload Kwargs : Type} := mkEngine {
  (* FPDF_Load*Document on the file content and a password *)
  eng_load : bytes → option string → option EDoc;
  (* the blocks a save hands to WriteBlock, and the success flag *)
  eng_save : EDoc → option Z → list bytes * bool;
  (* PdfPage.render_to<name> with the keyword arguments, on page [i] *)
  eng_render : string → Kwargs → EDoc → nat → exn + Payload;
  (* os.path.abspath(os.path.expanduser(path)) *)
  os_abspath : string → string;
  (* how the C library resolves a path it is given *)
  eng_resolve : string → string;
}.
Arguments Engine : clear implicits.

(** A Python object passed as output buffer of [save]: what
    [getattr(buffer, "write", None)] finds, and where a write lands. *)
Inductive WriteAttr := NoAttr | NonCallable | Callable.

Record OutObj := mkOut {
  o_write : WriteAttr;
  o_buf : nat;
}.

Record PdfDocument := mkDoc {
  _orig_input : Input;
  _actual_input : Input;
  _rendering_input : option Input;
  _ld_data : option nat;
  _password : option string;
  _file_access : FileAccessArg;
  _autoclose : bool;
  _pdf : nat;
}.

Definition set_rendering_input (doc : PdfDocument) (r : Input) : PdfDocument :=
  mkDoc (_orig_input doc) (_actual_input doc) (Some r) (_ld_data doc)
        (_password doc) (_file_access doc) (_autoclose doc) (_pdf doc).

(** [page.PdfPage]: a raw page handle and a reference back to the
    document it was loaded from. *)
Record PdfPage := mkPdfPage {
  page_raw : nat;
  page_pdf : PdfDocument;
}.

Section Helper.
Context {Payload Kwargs : Type} (E : Engine Payload Kwargs).

(** *** Native calls *)

Definition live_doc (pdf : nat) : Py EDoc :=
  let! w := get_world in
  match w_docs w !! pdf with
  | None => raise NativeFault
  | Some d => ret d
  end.

Definition native_load (content : bytes) (password : option string) : Py nat :=
  match eng_load E content password with
  | None => raise PdfiumError
  | Some d =>
      let! w := get_world in
      let h := fresh (dom (w_docs w)) in
      run modify (set_docs <[h := d]>) in
      ret h
  end.

Definition FPDF_CreateNewDocument : Py nat :=
  let! w := get_world in
  let h := fresh (dom (w_docs w)) in
  run modify (set_docs <[h := mkEDoc [] (mkGraph None ∅ ∅ (λ _, mkInfo "" 0 (-1) 0 0 []))]>) in
  ret h.

Definition FPDF_GetPageCount (pdf : nat) : Py Z :=
  let! d := live_doc pdf in
  ret (Z.of_nat (length (d_pages d))).

Definition FPDF_CloseDocument (pdf : nat) : Py unit :=
  let! _ := live_doc pdf in
  modify (set_docs (delete pdf)).

Definition FPDF_LoadPage (pdf : nat) (index : Z) : Py nat :=
  let! _ := live_doc pdf in
  let! w := get_world in
  let p := fresh (dom (w_pages w)) in
  run modify (set_pages <[p := (pdf, Z.to_nat index)]>) in
  ret p.

Definition FPDF_ClosePage (page : nat) : Py unit :=
  let! w := get_world in
  match w_pages w !! page with
  | None => raise NativeFault
  | Some _ => modify (set_pages (delete page))
  end.

Definition FPDFPage_Delete (pdf : nat) (index : Z) : Py unit :=
  let! d := live_doc pdf in
  modify (set_docs
    <[pdf := mkEDoc (delete (Z.to_nat index) (d_pages d)) (d_outline d)]>).

(** Modelled from the spec: [FPDFPage_New] of the binding module
    [pypdfium2._pypdfium], which is not among the sources.  The spec has
    "[new_page] clamps index to [[0, page_count]] (null/over-range index
    appends)", and the docstring of [new_page] says the same of the
    index it forwards: at or below zero the page goes to the beginning,
    beyond the last index it is appended. *)
Definition clamp_index (index count : Z) : nat :=
  Z.to_nat (Z.max 0 (Z.min index count)).

Definition FPDFPage_New (pdf : nat) (index : Z) (width height : float) : Py nat :=
  let! d := live_doc pdf in
  let k := clamp_index index (Z.of_nat (length (d_pages d))) in
  let pages' := take k (d_pages d) ++ mkPage width height :: drop k (d_pages d) in
  run modify (set_docs <[pdf := mkEDoc pages' (d_outline d)]>) in
  let! w := get_world in
  let p := fresh (dom (w_pages w)) in
  run modify (set_pages <[p := (pdf, k)]>) in
  ret p.

(** Loader data that [open_pdf] returns next to the handle. *)
Definition ld_new : Py nat :=
  let! w := get_world in
  let l := fresh (w_ld w) in
  run modify (set_ld (λ s, {[l]} ∪ s)) in
  ret l.

Definition ld_close (l : nat) : Py unit :=
  modify (set_ld (λ s, s ∖ {[l]})).

(** Modelled from the spec: [open_pdf] of [_helpers/_opener.py], which
    is not among the sources.  The spec has the open "fail with a domain
    error if decoding fails" and "with a type error for unsupported
    input types", and a successful open "binds exactly one native
    handle".  How the native reader moves the cursor of a buffer it
    reads from is not said and not modelled. *)
Definition open_pdf (input : Input) (password : option string) : Py (nat * option nat) :=
  match input with
  | InStr path =>
      let! w := get_world in
      match w_files w !! eng_resolve E path with
      | None => raise PdfiumError
      | Some content => let! h := native_load content password in ret (h, None)
      end
  | InBytes content =>
      let! h := native_load content password in
      let! l := ld_new in
      ret (h, Some l)
  | InBuffer b =>
      let! content := with_buffer b (λ buf, ret (b_data buf)) in
      let! h := native_load content password in
      let! l := ld_new in
      ret (h, Some l)
  | InHandle _ | InOther => raise TypeError
  end.

(** *** [PdfDocument] *)

(** The part of [__init__] that deals with a file path: the normalised
    original input, the input actually opened, and the autoclose flag. *)
Definition init_path (path : string) (file_access : FileAccessArg) (autoclose : bool)
  : Py (Input * Input * bool) :=
  let orig := os_abspath E path in
  let! w := get_world in
  match w_files w !! orig with
  | None => raise FileNotFoundError
  | Some content =>
      match file_access with
      | FA NATIVE => ret (InStr orig, InStr path, autoclose)
      | FA BUFFER => let! b := buf_new content in ret (InStr orig, InBuffer b, true)
      | FA BYTES =>
          let! b := buf_new content in
          let! data := buf_read b in
          run buf_close b in
          ret (InStr orig, InBytes data, autoclose)
      | FA_other => raise TypeError
      end
  end.

Definition __init__ (input_data : Input) (password : option string)
    (file_access : FileAccessArg) (autoclose : bool) : Py PdfDocument :=
  let! '(orig, actual, autoclose') :=
    match input_data with
    | InStr path => init_path path file_access autoclose
    | _ => ret (input_data, input_data, autoclose)
    end in
  match actual with
  | InHandle h =>
      ret (mkDoc orig actual None None password file_access autoclose' h)
  | _ =>
      let! '(h, ld) := open_pdf actual password in
      ret (mkDoc orig actual None ld password file_access autoclose' h)
  end.

Definition __len__ (self : PdfDocument) : Py Z :=
  FPDF_GetPageCount (_pdf self).

Definition new : Py PdfDocument :=
  let! new_pdf := FPDF_CreateNewDocument in
  __init__ (InHandle new_pdf) None (FA NATIVE) false.

Definition close (self : PdfDocument) : Py unit :=
  run FPDF_CloseDocument (_pdf self) in
  run match _ld_data self with
      | Some l => ld_close l
      | None => ret tt
      end in
  match _actual_input self with
  | InBuffer b => if _autoclose self then buf_close b else ret tt
  | _ => ret tt
  end.

(** [_writer_class]: the callback object behind [FPDF_FILEWRITE.WriteBlock]. *)
Definition callable_write (buffer : OutObj) : bool :=
  match o_write buffer with Callable => true | _ => false end.

Definition _writer_class (buffer : OutObj) : Py OutObj :=
  if callable_write buffer then ret buffer
  else raise ValueError.

Definition _writer_class_call (self : OutObj) (block : bytes) : Py Z :=
  run buf_write (o_buf self) block in
  ret 1.

(** The engine hands its blocks to the callback one by one.  A callback
    that raises does not return 1: the engine stops and reports failure. *)
Fixpoint write_blocks (writer : OutObj) (blocks : list bytes) : Py bool :=
  match blocks with
  | [] => ret true
  | block :: rest =>
      λ w, match _writer_class_call writer block w with
           | (inr _, w') => write_blocks writer rest w'
           | (inl _, w') => (inr false, w')
           end
  end.

(** [FPDF_SaveAsCopy] ([version] absent) and [FPDF_SaveWithVersion]. *)
Definition FPDF_Save (pdf : nat) (writer : OutObj) (version : option Z) : Py bool :=
  run modify (add_event (SaveCall pdf version)) in
  let! d := live_doc pdf in
  let '(blocks, success) := eng_save E d version in
  let! written := write_blocks writer blocks in
  ret (written && success).

Definition save (self : PdfDocument) (buffer : OutObj) (version : option Z) : Py unit :=
  let! filewrite := _writer_class buffer in
  let! success := FPDF_Save (_pdf self) filewrite version in
  if success then ret tt else raise PdfiumError.

Definition _verify_index (self : PdfDocument) (index : Z) : Py unit :=
  let! n_pages := __len__ self in
  if (0 <=? index) && (index <? n_pages) then ret tt
  else raise IndexError.

Definition new_page (self : PdfDocument) (width height : float) (index : option Z)
  : Py PdfPage :=
  let! index := match index with
                | None => __len__ self
                | Some i => ret i
                end in
  let! raw_page := FPDFPage_New (_pdf self) index width height in
  ret (mkPdfPage raw_page self).

Definition del_page (self : PdfDocument) (index : Z) : Py unit :=
  run _verify_index self index in
  FPDFPage_Delete (_pdf self) index.

Definition get_page (self : PdfDocument) (index : Z) : Py PdfPage :=
  run _verify_index self index in
  let! raw_page := FPDF_LoadPage (_pdf self) index in
  ret (mkPdfPage raw_page self).

(** [for i in range(len(self)): yield self.get_page(i)], run to the end. *)
Fixpoint get_pages (self : PdfDocument) (indices : list Z) : Py (list PdfPage) :=
  match indices with
  | [] => ret []
  | i :: rest =>
      let! p := get_page self i in
      let! ps := get_pages self rest in
      ret (p :: ps)
  end.

Definition py_range (n : Z) : list Z := Z.of_nat <$> seq 0 (Z.to_nat n).

Definition __iter__ (self : PdfDocument) : Py (list PdfPage) :=
  let! n := __len__ self in
  get_pages self (py_range n).

(** *** [PdfPage]

    Modelled from the spec: the class [PdfPage] of [_helpers/page.py],
    which is not among the sources.  The spec has a page handle that
    "owns a native page object" and "delegates rendering to the engine";
    closing it releases the native page. *)
Definition PdfPage_close (page : PdfPage) : Py unit :=
  FPDF_ClosePage (page_raw page).

Definition PdfPage_render_to (page : PdfPage) (renderer_name : string) (kwargs : Kwargs)
  : Py Payload :=
  let! w := get_world in
  match w_pages w !! page_raw page with
  | None => raise NativeFault
  | Some (pdf, index) =>
      let! d := live_doc pdf in
      match eng_render E renderer_name kwargs d index with
      | inl e => raise e
      | inr result => ret result
      end
  end.

Definition page_is_open (w : World) (page : PdfPage) : Prop :=
  is_Some (w_pages w !! page_raw page).

(** *** [update_rendering_input] *)

Definition update_rendering_input (self : PdfDocument) : Py PdfDocument :=
  let! buffer := buf_new [] in
  run save self (mkOut Callable buffer) None in
  run buf_seek buffer 0 in
  let! data := buf_read buffer in
  run buf_close buffer in
  ret (set_rendering_input self (InBytes data)).

(** *** [_process_page]: one rendering task, run in a worker *)

Definition _process_page (index : Z) (renderer_name : string) (input_data : Input)
    (password : option string) (file_access : FileAccessArg) (kwargs : Kwargs)
  : Py (Payload * Z) :=
  let! pdf := __init__ input_data password file_access false in
  let! page := get_page pdf index in
  let! result := PdfPage_render_to page renderer_name kwargs in
  run PdfPage_close page in
  run close pdf in
  ret (result, index).

(** *** The process pool

    [ProcessPoolExecutor.map] submits every task at once and hands the
    results back through one future per task.  Workers finish in any
    order; the iterator waits for the futures in submission order. *)
Record Pool := mkPool {
  pool_world : nat → World;      (* the worker process state the k-th task starts in *)
  pool_schedule : list nat;      (* task positions, in order of completion *)
}.

Definition task_result : Type := exn + (Payload * Z).

(** What the worker of the [k]-th task hands back. *)
Definition worker_result (fn : Z → Py (Payload * Z)) (pool : Pool) (tasks : list Z)
    (k : nat) : option task_result :=
  t ← tasks !! k; Some (fn t (pool_world pool k)).1.

Definition complete (fn : Z → Py (Payload * Z)) (pool : Pool) (tasks : list Z)
    (futures : gmap nat task_result) (k : nat) : gmap nat task_result :=
  match tasks !! k with
  | Some t => <[k := (fn t (pool_world pool k)).1]> futures
  | None => futures
  end.

Definition run_workers (fn : Z → Py (Payload * Z)) (pool : Pool) (tasks : list Z)
  : gmap nat task_result :=
  foldl (complete fn pool tasks) ∅ (pool_schedule pool).

(** What the iterator of [pool.map] delivers, slot by slot; [None] is a
    future that never completes. *)
Definition pool_map (fn : Z → Py (Payload * Z)) (pool : Pool) (tasks : list Z)
  : list (option task_result) :=
  (λ k, run_workers fn pool tasks !! k) <$> seq 0 (length tasks).

(** *** [_render_base] *)

Inductive outcome :=
  | Returned               (* the generator is exhausted *)
  | Raised (e : exn)
  | Blocked.               (* waiting on a future that never completes *)

(** Lines 417-428: make sure there is input a worker can open. *)
Definition ensure_rendering_input (self : PdfDocument) : Py PdfDocument :=
  match _rendering_input self with
  | Some _ => ret self
  | None =>
      match _orig_input self with
      | InHandle _ =>
          run warn "Cannot perform concurrent processing without input sources - saving the document implicitly to get picklable data." in
          update_rendering_input self
      | InBuffer b =>
          run warn "Cannot perform concurrent rendering with buffer input - reading the whole buffer into memory implicitly." in
          let! cursor := buf_tell b in
          run buf_seek b 0 in
          let! data := buf_read b in
          run buf_seek b cursor in
          ret (set_rendering_input self (InBytes data))
      | orig => ret (set_rendering_input self orig)
      end
  end.

Definition index_in_bounds (n_pages i : Z) : bool := (0 <=? i) && (i <? n_pages).

(** Lines 432-433: no sequence, or an empty one, stands for all pages. *)
Definition effective_indices (n_pages : Z) (page_indices : option (list Z)) : list Z :=
  match page_indices with
  | None => py_range n_pages
  | Some l => if (length l =? 0)%nat then py_range n_pages else l
  end.

(** [ProcessPoolExecutor(n_processes)]: a count that is given must be
    positive. *)
Definition pool_new (n_processes : option Z) : Py unit :=
  match n_processes with
  | Some n => if n <=? 0 then raise ValueError else ret tt
  | None => ret tt
  end.

Definition submit_all (tasks : list Z) : Py unit :=
  modify (λ w, foldl (λ w i, add_event (Submit i) w) w tasks).

(** Lines 430-447: the indices that are submitted to the pool. *)
Definition render_setup (self : PdfDocument) (page_indices : option (list Z))
    (n_processes : option Z) : Py (list Z) :=
  let! n_pages := __len__ self in
  let page_indices := effective_indices n_pages page_indices in
  if negb (forallb (index_in_bounds n_pages) page_indices) then raise ValueError
  else
    run pool_new n_processes in
    run submit_all page_indices in
    ret page_indices.

Definition invoke_renderer (self : PdfDocument) (renderer_name : string) (kwargs : Kwargs)
  : Z → Py (Payload * Z) :=
  λ index, _process_page index renderer_name (default InOther (_rendering_input self))
             (_password self) (_file_access self) kwargs.

(** The loop over [pool.map], from counter [i] on, and the final
    assertion: what is yielded, and how the generator ends. *)
Fixpoint consume (page_indices : list Z) (i : nat) (stream : list (option task_result))
  : list Payload * outcome :=
  match stream with
  | [] => ([], if (length page_indices =? i)%nat then Returned else Raised AssertionError)
  | None :: _ => ([], Blocked)
  | Some (inl e) :: _ => ([], Raised e)
  | Some (inr (result, index)) :: rest =>
      match page_indices !! i with
      | None => ([], Raised IndexError)
      | Some expected =>
          if index =? expected then
            let '(ys, o) := consume page_indices (S i) rest in (result :: ys, o)
          else ([], Raised AssertionError)
      end
  end.

Record RenderRun := mkRun {
  run_yielded : list Payload;
  run_outcome : outcome;
  run_self : PdfDocument;
  run_world : World;
}.

Definition _render_base (self : PdfDocument) (renderer_name : string)
    (page_indices : option (list Z)) (n_processes : option Z) (kwargs : Kwargs)
    (pool : Pool) (w : World) : RenderRun :=
  match ensure_rendering_input self w with
  | (inl e, w1) => mkRun [] (Raised e) self w1
  | (inr self, w1) =>
      match render_setup self page_indices n_processes w1 with
      | (inl e, w2) => mkRun [] (Raised e) self w2
      | (inr page_indices, w2) =>
          let stream :=
            pool_map (invoke_renderer self renderer_name kwargs) pool page_indices in
          let '(ys, o) := consume page_indices 0 stream in
          mkRun ys o self w2
      end
  end.

Definition render_tobytes (self : PdfDocument) := _render_base self "bytes".
Definition render_topil (self : PdfDocument) := _render_base self "pil".
Definition render_tonumpy (self : PdfDocument) := _render_base self "numpy".

Definition submitted (w : World) : list Z :=
  omap (λ e, match e with Submit i => Some i | _ => None end) (w_log w).

(** *** [get_toc]: the outline reader

    [_get_bookmark] reads one node; the traversal proper is
    [get_toc_rec] (the method body) and [toc_while] (its loop).  Rocq
    wants a bound on the nesting of calls; [toc_fuel] gives one that is
    never reached. *)
Record OutlineItem := mkItem {
  level : Z;
  title : string;
  is_closed : bool;
  page_index : option Z;
  view_mode : Z;
  view_pos : list float;
}.

Definition _get_bookmark (g : BookmarkGraph) (bookmark : nat) (lvl : Z) : OutlineItem :=
  let info := bm_info g bookmark in
  mkItem lvl (bi_title info) (bi_count info <? 0)
         (if bi_dest_page info =? -1 then None else Some (bi_dest_page info))
         (bi_view_mode info)
         (take (bi_n_params info) (bi_view_pos info)).

Definition first_child (g : BookmarkGraph) (parent : option nat) : option nat :=
  match parent with
  | None => bm_root g
  | Some a => bm_child g !! a
  end.

Definition next_sibling (g : BookmarkGraph) (bookmark : nat) : option nat :=
  bm_next g !! bookmark.

(** One run of the generator: the nodes yielded with their level, the
    seen-set as it is left, and the number of warnings logged. *)
Record TocRun := mkToc {
  toc_visits : list (nat * Z);
  toc_seen : gset nat;
  toc_warnings : nat;
}.

Fixpoint get_toc_rec (fuel : nat) (g : BookmarkGraph) (max_depth : Z)
    (parent : option nat) (lvl : Z) (seen : gset nat) : option TocRun :=
  match fuel with
  | O => None
  | S fuel =>
      if lvl >=? max_depth then Some (mkToc [] seen 0)
      else toc_while fuel g max_depth lvl (first_child g parent) seen
  end
with toc_while (fuel : nat) (g : BookmarkGraph) (max_depth : Z)
    (lvl : Z) (bookmark : option nat) (seen : gset nat) : option TocRun :=
  match fuel with
  | O => None
  | S fuel =>
      match bookmark with
      | None => Some (mkToc [] seen 0)
      | Some b =>
          if decide (b ∈ seen) then Some (mkToc [] seen 1)
          else
            sub ← get_toc_rec fuel g max_depth (Some b) (lvl + 1) ({[b]} ∪ seen);
            rest ← toc_while fuel g max_depth lvl (next_sibling g b) (toc_seen sub);
            Some (mkToc ((b, lvl) :: toc_visits sub ++ toc_visits rest)
                        (toc_seen rest)
                        (toc_warnings sub + toc_warnings rest))
      end
  end.

(** Every address a traversal can come across. *)
Definition toc_nodes (g : BookmarkGraph) : gset nat :=
  from_option singleton ∅ (bm_root g) ∪ map_img (bm_child g) ∪ map_img (bm_next g).

Definition toc_fuel (g : BookmarkGraph) : nat := 2 * size (toc_nodes g) + 2.

Definition toc_warning : string :=
  "A circular bookmark reference was detected whilst parsing the table of contents.".

Definition get_toc (self : PdfDocument) (max_depth : Z) (parent : option nat)
    (lvl : Z) (seen : option (gset nat)) : Py (list OutlineItem) :=
  let! d := live_doc (_pdf self) in
  let g := d_outline d in
  match get_toc_rec (toc_fuel g) g max_depth parent lvl (default ∅ seen) with
  | None => raise NativeFault
  | Some r =>
      run modify (λ w, foldl (λ w _, add_event (Warning toc_warning) w) w
                             (seq 0 (toc_warnings r))) in
      ret ((λ '(b, l), _get_bookmark g b l) <$> toc_visits r)
  end.

End Helper.

(** ** Notions used to state the properties *)

(** [keeps R m]: whatever [m] does, and however it ends, the world it
    leaves is [R]-related to the one it started in. *)
Definition keeps {A} (R : relation World) (m : Py A) : Prop :=
  ∀ w, R w (m w).2.

(** Native handles, loader data and submitted tasks are as before. *)
Definition same_handles : relation World := λ w w',
  w_docs w' = w_docs w ∧ w_pages w' = w_pages w ∧ w_ld w' = w_ld w ∧
  submitted w' = submitted w.

(** Python buffer objects are as before. *)
Definition same_buffers : relation World := λ w w', w_buffers w' = w_buffers w.

(** A pool size that [ProcessPoolExecutor] accepts. *)
Definition pool_size_ok (n_processes : option Z) : Prop :=
  match n_processes with Some n => 0 < n | None => True end.

(** What a run from seen-set [seen] at level [lvl] satisfies. *)
Definition toc_inv (max_depth lvl : Z) (seen : gset nat) (r : TocRun) : Prop :=
  toc_seen r = seen ∪ list_to_set (toc_visits r).*1 ∧
  NoDup (toc_visits r).*1 ∧
  (∀ a, a ∈ (toc_visits r).*1 → a ∉ seen) ∧
  (∀ a l, (a, l) ∈ toc_visits r → lvl ≤ l < max_depth).

(** The number of nodes not seen yet bounds what is left to do. *)
Definition toc_left (g : BookmarkGraph) (seen : gset nat) : nat :=
  size (toc_nodes g ∖ seen).

(** ** A small concrete engine, for examples

    A file of [n > 0] bytes parses to [n] blank A4 pages with an empty
    outline; saving writes one block of one byte per page; rendering
    page [i] at a positive scale gives [i + 1] bytes, and fails at a
    scale that is not positive. *)
Definition no_info : nat → BookmarkInfo := λ _, mkInfo "" 0 (-1) 0 0 [].

Definition sample_doc (n : nat) : EDoc :=
  mkEDoc (replicate n (mkPage 595 842)) (mkGraph None ∅ ∅ no_info).

Definition sample_engine : Engine bytes Z :=
  mkEngine bytes Z
    (λ content _, if decide (content = []) then None else Some (sample_doc (length content)))
    (λ d _, ([replicate (length (d_pages d)) x01], true))
    (λ _ scale _ i, if scale <=? 0 then inl PdfiumError else inr (replicate (S i) x02))
    (λ path, path)
    (λ path, path).

Definition empty_world : World := mkWorld ∅ ∅ ∅ ∅ ∅ [].

(** A bookmark graph with a cycle: [10] has first child [20], whose
    first child is [10] again. *)
Definition cyclic_outline : BookmarkGraph :=
  mkGraph (Some 10%nat) {[10%nat := 20%nat; 20%nat := 10%nat]} ∅ no_info.

(** Open a document from bytes, load all its pages, close the document. *)
Definition load_pages_then_close {Payload Kwargs} (E : Engine Payload Kwargs)
    (data : bytes) : Py (list PdfPage) :=
  let! pdf := __init__ E (InBytes data) None (FA NATIVE) false in
  let! pages := __iter__ pdf in
  run close pdf in
  ret pages.

(** A two-page document opened from two bytes, and the world it lives
    in: document handle 0, loader data 0. *)
Definition sample_pdf : PdfDocument :=
  mkDoc (InBytes [x01; x01]) (InBytes [x01; x01]) None (Some 0%nat) None
        (FA NATIVE) false 0.

Definition sample_world : World :=
  mkWorld ∅ ∅ {[0%nat := sample_doc 2]} ∅ {[0%nat]} [].

(** A pool whose workers start from an empty process state and finish
    the second task before the first. *)
Definition sample_pool : Pool := mkPool (λ _, empty_world) [1; 0]%nat.

(** A document read from buffer object 0, whose cursor is at 2. *)
Definition buffer_pdf : PdfDocument :=
  mkDoc (InBuffer 0) (InBuffer 0) None (Some 0%nat) None (FA NATIVE) false 0.

Definition buffer_world : World :=
  mkWorld ∅ {[0%nat := mkBuffer [x01; x01; x01] 2 false]}
          {[0%nat := sample_doc 3]} ∅ {[0%nat]} [].

(** A world whose document 0 has the cyclic outline. *)
Definition cyclic_world : World :=
  mkWorld ∅ ∅ {[0%nat := mkEDoc [mkPage 595 842] cyclic_outline]} ∅ {[0%nat]} [].

(** * Properties *)

Section Properties.
Context {Payload Kwargs : Type} (E : Engine Payload Kwargs).

Ltac py_unfold :=
  repeat progress
    (unfold bind, ret, raise, get_world, modify, warn, with_buffer in *; simpl in *).

(** *** What the primitives leave alone *)

Lemma write_blocks_frame (writer : OutObj) blocks w :
  w_docs (write_blocks writer blocks w).2 = w_docs w ∧
  w_pages (write_blocks writer blocks w).2 = w_pages w ∧
  w_ld (write_blocks writer blocks w).2 = w_ld w ∧
  w_log (write_blocks writer blocks w).2 = w_log w.
Proof.
  revert w. induction blocks as [|block rest IH]; intros w; [by compute|].
  simpl. unfold _writer_class_call, buf_write. py_unfold.
  destruct (w_buffers w !! o_buf writer) as [buf|]; [|done].
  destruct (b_closed buf); [done|].
  exact (IH (set_buffers _ w)).
Qed.

Lemma write_blocks_ok (writer : OutObj) blocks w :
  ∃ ok, (write_blocks writer blocks w).1 = inr ok.
Proof.
  revert w. induction blocks as [|block rest IH]; intros w; [by exists true|].
  simpl. destruct (_writer_class_call writer block w) as [[e|r] w']; eauto.
Qed.

Lemma len_spec (self : PdfDocument) d w :
  w_docs w !! _pdf self = Some d →
  __len__ self w = (inr (Z.of_nat (length (d_pages d))), w).
Proof.
  intros Hd. unfold __len__, FPDF_GetPageCount, live_doc. py_unfold. by rewrite Hd.
Qed.

Lemma len_world (self : PdfDocument) w : (__len__ self w).2 = w.
Proof.
  unfold __len__, FPDF_GetPageCount, live_doc. py_unfold.
  by destruct (w_docs w !! _pdf self).
Qed.

Lemma close_keeps_pages (self : PdfDocument) w :
  w_pages (close self w).2 = w_pages w.
Proof.
  unfold close, FPDF_CloseDocument, live_doc, ld_close, buf_close. py_unfold.
  destruct (w_docs w !! _pdf self); [|done]. simpl.
  destruct (_ld_data self); simpl;
    destruct (_actual_input self); simpl; try done;
    destruct (_autoclose self); simpl; try done;
    by destruct (w_buffers w !! buf).
Qed.

(** *** Frame lemmas *)

Lemma keeps_ret {A} (R : relation World) `{!Reflexive R} (a : A) : keeps R (ret a).
Proof. intros w. reflexivity. Qed.

Lemma keeps_raise {A} (R : relation World) `{!Reflexive R} e : keeps R (@raise A e).
Proof. intros w. reflexivity. Qed.

Lemma keeps_get_world (R : relation World) `{!Reflexive R} : keeps R get_world.
Proof. intros w. reflexivity. Qed.

Lemma keeps_bind {A B} (R : relation World) `{!Transitive R}
    (m : Py A) (k : A → Py B) :
  keeps R m → (∀ a, keeps R (k a)) → keeps R (bind m k).
Proof.
  intros Hm Hk w. unfold bind. specialize (Hm w).
  destruct (m w) as [[e|a] w1]; simpl in *; [done|].
  etrans; [exact Hm|]. apply Hk.
Qed.

Lemma keeps_modify (R : relation World) (f : World → World) :
  (∀ w, R w (f w)) → keeps R (modify f).
Proof. intros Hf w. apply Hf. Qed.

#[local] Instance same_handles_refl : Reflexive same_handles.
Proof. by intros w. Qed.

#[local] Instance same_handles_trans : Transitive same_handles.
Proof.
  intros w1 w2 w3 (?&?&?&?) (?&?&?&?). repeat split; congruence.
Qed.

#[local] Instance same_buffers_refl : Reflexive same_buffers.
Proof. by intros w. Qed.

#[local] Instance same_buffers_trans : Transitive same_buffers.
Proof. intros w1 w2 w3 H1 H2. unfold same_buffers in *. congruence. Qed.

Create HintDb frame discriminated.

Ltac keeps_tac :=
  repeat first
    [ solve [auto with frame]
    | apply keeps_ret; tc_solve
    | apply keeps_raise; tc_solve
    | apply keeps_get_world; tc_solve
    | apply keeps_bind; [tc_solve| |intros ?]
    | match goal with |- keeps _ (match _ with _ => _ end) => case_match end
    | match goal with |- keeps _ (let '(_, _) := _ in _) => case_match end ].

Lemma submitted_add_event e w :
  submitted (add_event e w) =
  submitted w ++ match e with Submit i => [i] | _ => [] end.
Proof.
  unfold submitted, add_event. simpl. rewrite omap_app. by destruct e.
Qed.

Lemma with_buffer_handles {A} b (f : Buffer → Py A) :
  (∀ buf, keeps same_handles (f buf)) → keeps same_handles (with_buffer b f).
Proof. intros Hf. unfold with_buffer. keeps_tac. Qed.

Lemma set_buffers_handles f w : same_handles w (set_buffers f w).
Proof. done. Qed.

Lemma modify_buffers_handles f : keeps same_handles (modify (set_buffers f)).
Proof. apply keeps_modify, set_buffers_handles. Qed.

Lemma warn_handles msg : keeps same_handles (warn msg).
Proof.
  apply keeps_modify. intros w. repeat split.
  rewrite submitted_add_event. apply app_nil_r.
Qed.

Lemma buf_tell_handles b : keeps same_handles (buf_tell b).
Proof. apply with_buffer_handles. intros buf. keeps_tac. Qed.

Lemma buf_seek_handles b n : keeps same_handles (buf_seek b n).
Proof.
  apply with_buffer_handles. intros buf. apply keeps_modify, set_buffers_handles.
Qed.

Lemma buf_read_handles b : keeps same_handles (buf_read b).
Proof.
  apply with_buffer_handles. intros buf. keeps_tac.
  apply keeps_modify, set_buffers_handles.
Qed.

Lemma buf_close_handles b : keeps same_handles (buf_close b).
Proof. unfold buf_close. keeps_tac. apply keeps_modify, set_buffers_handles. Qed.

Lemma buf_new_handles data : keeps same_handles (buf_new data).
Proof. unfold buf_new. keeps_tac. apply keeps_modify, set_buffers_handles. Qed.

#[local] Hint Resolve modify_buffers_handles warn_handles buf_tell_handles
  buf_seek_handles buf_read_handles buf_close_handles buf_new_handles : frame.

Lemma live_doc_world pdf w : (live_doc pdf w).2 = w.
Proof. unfold live_doc. py_unfold. by destruct (w_docs w !! pdf). Qed.

Lemma save_handles (self : PdfDocument) buffer version :
  keeps same_handles (save E self buffer version).
Proof.
  unfold save, _writer_class, FPDF_Save. keeps_tac.
  - apply keeps_modify. intros w. repeat split.
    rewrite submitted_add_event. apply app_nil_r.
  - intros w. destruct (write_blocks_frame a l w) as (?&?&?&Hlog).
    repeat split; try done. unfold submitted. by rewrite Hlog.
Qed.

#[local] Hint Resolve save_handles : frame.

Lemma update_rendering_input_handles (self : PdfDocument) :
  keeps same_handles (update_rendering_input E self).
Proof.
  unfold update_rendering_input. keeps_tac.
Qed.

#[local] Hint Resolve update_rendering_input_handles : frame.

Lemma ensure_rendering_input_handles (self : PdfDocument) :
  keeps same_handles (ensure_rendering_input E self).
Proof.
  unfold ensure_rendering_input. keeps_tac.
Qed.

Lemma ensure_rendering_input_pdf (self self' : PdfDocument) w w' :
  ensure_rendering_input E self w = (inr self', w') →
  _pdf self' = _pdf self ∧ _orig_input self' = _orig_input self ∧
  _password self' = _password self ∧ _file_access self' = _file_access self ∧
  is_Some (_rendering_input self').
Proof.
  unfold ensure_rendering_input, update_rendering_input. py_unfold.
  intros H. repeat (case_match; simplify_eq/=); eauto 10.
Qed.

(** *** Saving *)

(** C10.  An output object without a callable [write] makes [save] raise
    ValueError (and not PdfiumError) from the [_writer_class]
    constructor, before the engine is asked to save: the world is exactly
    as before, so no save call is logged, no buffer has changed and the
    document is untouched. *)
Theorem save_rejects_unwritable (self : PdfDocument) (buffer : OutObj)
    (version : option Z) (w : World) :
  callable_write buffer = false →
  save E self buffer version w = (inl ValueError, w).
Proof.
  intros Hcw. unfold save, _writer_class. rewrite Hcw. reflexivity.
Qed.

(** *** Saving and reopening

    The page count of a reopened copy is the engine's business: it is
    the count of whatever [eng_load] makes of what [eng_save] wrote.
    What the helper adds is that nothing is lost in between. *)

Lemma write_blocks_append (b : nat) (blocks : list bytes) (acc : bytes) w :
  w_buffers w !! b = Some (mkBuffer acc (length acc) false) →
  write_blocks (mkOut Callable b) blocks w =
  (inr true,
   set_buffers <[b := mkBuffer (acc ++ concat blocks)
                               (length (acc ++ concat blocks)) false]> w).
Proof.
  revert acc w. induction blocks as [|block blocks IH]; intros acc w Hb.
  - simpl. unfold ret. f_equal. rewrite app_nil_r.
    destruct w. unfold set_buffers. simpl in *. f_equal. by rewrite insert_id.
  - cbn [write_blocks]. unfold _writer_class_call, buf_write. py_unfold.
    rewrite Hb. cbn [b_closed b_pos b_data].
    rewrite firstn_all, Nat.sub_diag, drop_ge by lia. cbn [replicate app].
    rewrite app_nil_r.
    rewrite (IH (acc ++ block)).
    + unfold set_buffers. simpl. rewrite insert_insert_eq.
      by rewrite <-app_assoc.
    + simpl. rewrite lookup_insert_eq. by rewrite length_app.
Qed.

Lemma update_rendering_input_snapshot (self : PdfDocument) (d : EDoc)
    (blocks : list bytes) (w : World) :
  w_docs w !! _pdf self = Some d →
  eng_save E d None = (blocks, true) →
  ∃ w1,
    update_rendering_input E self w =
      (inr (set_rendering_input self (InBytes (concat blocks))), w1) ∧
    w_docs w1 = w_docs w.
Proof.
  intros Hd Hsave.
  unfold update_rendering_input, buf_new, save, _writer_class, FPDF_Save, live_doc,
    buf_seek, buf_read, buf_close.
  py_unfold. rewrite Hd, Hsave.
  rewrite (write_blocks_append _ blocks []); [|by simpl; rewrite lookup_insert_eq].
  simpl. repeat (rewrite lookup_insert_eq; simpl). eauto.
Qed.

Lemma open_bytes_page_count (data : bytes) password file_access autoclose
    (d : EDoc) (w : World) :
  eng_load E data password = Some d →
  ∃ pdf w',
    __init__ E (InBytes data) password file_access autoclose w = (inr pdf, w') ∧
    __len__ pdf w' = (inr (Z.of_nat (length (d_pages d))), w').
Proof.
  intros Hload. unfold __init__, open_pdf, native_load, ld_new. py_unfold.
  rewrite Hload. simpl. eexists _, _. split; [reflexivity|].
  apply len_spec. simpl. by rewrite lookup_insert_eq.
Qed.

(** *** Concurrent rendering: set-up *)

Lemma submit_all_world tasks w :
  (submit_all tasks w).2 =
  mkWorld (w_files w) (w_buffers w) (w_docs w) (w_pages w) (w_ld w)
          (w_log w ++ (Submit <$> tasks)).
Proof.
  unfold submit_all, modify. simpl. revert w.
  induction tasks as [|t tasks IH]; intros w; simpl.
  - rewrite app_nil_r. by destruct w.
  - rewrite IH. simpl. by rewrite <-app_assoc.
Qed.

Lemma submitted_submit_all tasks w :
  submitted (submit_all tasks w).2 = submitted w ++ tasks.
Proof.
  rewrite submit_all_world. unfold submitted. simpl. rewrite omap_app. f_equal.
  induction tasks as [|t tasks IH]; csimpl; [done|]. by rewrite IH.
Qed.

Lemma render_setup_spec (self : PdfDocument) page_indices n_processes d w :
  w_docs w !! _pdf self = Some d →
  let n_pages := Z.of_nat (length (d_pages d)) in
  let l := effective_indices n_pages page_indices in
  render_setup self page_indices n_processes w =
  if forallb (index_in_bounds n_pages) l then
    match pool_new n_processes w with
    | (inr _, _) => (inr l, (submit_all l w).2)
    | (inl e, _) => (inl e, w)
    end
  else (inl ValueError, w).
Proof.
  intros Hd n_pages l. unfold render_setup, bind at 1.
  rewrite (len_spec self d w Hd). fold n_pages. fold l.
  destruct (forallb (index_in_bounds n_pages) l); [|done].
  simpl. unfold pool_new, bind.
  destruct n_processes as [k|]; [destruct (k <=? 0)|]; done.
Qed.

Lemma render_setup_empty (self : PdfDocument) n_processes w :
  render_setup self (Some []) n_processes w = render_setup self None n_processes w.
Proof. reflexivity. Qed.

Lemma py_range_elem (n i : Z) : i ∈ py_range n ↔ 0 ≤ i < n.
Proof.
  unfold py_range. rewrite list_elem_of_fmap. split.
  - intros (k & -> & Hk). apply elem_of_seq in Hk. lia.
  - intros Hi. exists (Z.to_nat i). split; [lia|]. apply elem_of_seq. lia.
Qed.

Lemma py_range_in_bounds (n : Z) : forallb (index_in_bounds n) (py_range n) = true.
Proof.
  apply forallb_forall. intros i Hi%list_elem_of_In%py_range_elem.
  unfold index_in_bounds. rewrite andb_true_iff.
  split; [apply Z.leb_le|apply Z.ltb_lt]; lia.
Qed.

Lemma forallb_out_of_bounds (n i : Z) (l : list Z) :
  i ∈ l → ¬ (0 ≤ i < n) → forallb (index_in_bounds n) l = false.
Proof.
  intros Hi Hout. apply not_true_is_false. intros Hall.
  rewrite forallb_forall in Hall.
  specialize (Hall i (proj1 (list_elem_of_In _ _) Hi)).
  unfold index_in_bounds in Hall. apply andb_true_iff in Hall.
  destruct Hall as [H1%Z.leb_le H2%Z.ltb_lt]. lia.
Qed.

Lemma render_setup_out_of_bounds (self : PdfDocument) (l : list Z)
    (n_processes : option Z) (d : EDoc) (w : World) (i : Z) :
  w_docs w !! _pdf self = Some d →
  i ∈ l →
  ¬ (0 ≤ i < Z.of_nat (length (d_pages d))) →
  render_setup self (Some l) n_processes w = (inl ValueError, w).
Proof.
  intros Hd Hi Hout.
  rewrite (render_setup_spec self (Some l) n_processes d w Hd).
  assert (Hl : effective_indices (Z.of_nat (length (d_pages d))) (Some l) = l).
  { unfold effective_indices. destruct l; [by apply elem_of_nil in Hi|done]. }
  by rewrite Hl, (forallb_out_of_bounds _ i l Hi Hout).
Qed.

Lemma ensure_rendering_input_live (self self1 : PdfDocument) w w1 d :
  ensure_rendering_input E self w = (inr self1, w1) →
  w_docs w !! _pdf self = Some d →
  w_docs w1 !! _pdf self1 = Some d ∧ submitted w1 = submitted w.
Proof.
  intros Hready Hd.
  destruct (ensure_rendering_input_pdf _ _ _ _ Hready) as (Hpdf & _).
  pose proof (ensure_rendering_input_handles self w) as (Hdocs & _ & _ & Hsub).
  rewrite Hready in Hdocs, Hsub. simpl in Hdocs, Hsub.
  by rewrite Hpdf, Hdocs.
Qed.

(** C2.  With the rendering input in place, an explicit index sequence
    that holds an index outside [0, page_count) makes the operation end
    with ValueError: nothing is yielded, the world is the one the
    input-readiness step left, and the tasks submitted to the pool are
    those submitted before, so no worker task was dispatched. *)
Theorem render_out_of_bounds_fails_fast (self self1 : PdfDocument)
    (renderer_name : string) (l : list Z) (n_processes : option Z)
    (kwargs : Kwargs) (pool : Pool) (w w1 : World) (d : EDoc) (i : Z) :
  ensure_rendering_input E self w = (inr self1, w1) →
  w_docs w !! _pdf self = Some d →
  i ∈ l →
  ¬ (0 ≤ i < Z.of_nat (length (d_pages d))) →
  let r := _render_base E self renderer_name (Some l) n_processes kwargs pool w in
  run_outcome r = Raised ValueError ∧
  run_yielded r = [] ∧
  run_world r = w1 ∧
  submitted (run_world r) = submitted w.
Proof.
  intros Hready Hd Hi Hout r.
  destruct (ensure_rendering_input_live _ _ _ _ _ Hready Hd) as [Hd1 Hsub].
  subst r. unfold _render_base. rewrite Hready.
  by rewrite (render_setup_out_of_bounds self1 l n_processes d w1 i Hd1 Hi Hout).
Qed.

(** The same without asking anything of the readiness step: whatever
    error ends the operation, nothing was yielded or dispatched. *)
Lemma render_out_of_bounds_no_dispatch (self : PdfDocument)
    (renderer_name : string) (l : list Z) (n_processes : option Z)
    (kwargs : Kwargs) (pool : Pool) (w : World) (d : EDoc) (i : Z) :
  w_docs w !! _pdf self = Some d →
  i ∈ l →
  ¬ (0 ≤ i < Z.of_nat (length (d_pages d))) →
  let r := _render_base E self renderer_name (Some l) n_processes kwargs pool w in
  (∃ e, run_outcome r = Raised e) ∧
  run_yielded r = [] ∧
  submitted (run_world r) = submitted w.
Proof.
  intros Hd Hi Hout r. subst r. unfold _render_base.
  destruct (ensure_rendering_input E self w) as [[e|self1] w1] eqn:Hready.
  - pose proof (ensure_rendering_input_handles self w) as (_ & _ & _ & Hsub).
    rewrite Hready in Hsub. simpl in *. eauto.
  - destruct (ensure_rendering_input_live _ _ _ _ _ Hready Hd) as [Hd1 Hsub].
    rewrite (render_setup_out_of_bounds self1 l n_processes d w1 i Hd1 Hi Hout).
    simpl. eauto.
Qed.

Lemma submit_fold_buffers (l : list Z) w :
  w_buffers (foldl (λ w i, add_event (Submit i) w) w l) = w_buffers w.
Proof. revert w. induction l as [|i l IH]; intros w; simpl; [done|by rewrite IH]. Qed.

Lemma render_setup_buffers (self : PdfDocument) page_indices n_processes w :
  w_buffers (render_setup self page_indices n_processes w).2 = w_buffers w.
Proof.
  unfold render_setup, bind at 1.
  pose proof (len_world self w) as Hw.
  destruct (__len__ self w) as [[e|n_pages] w']; simpl in Hw; subst w'; [done|].
  case_match; [done|]. unfold pool_new, bind.
  destruct n_processes as [k|]; [destruct (k <=? 0); [done|]|];
    simpl; apply submit_fold_buffers.
Qed.

Lemma render_base_world (self : PdfDocument) renderer_name page_indices
    n_processes (kwargs : Kwargs) pool w :
  run_world (_render_base E self renderer_name page_indices n_processes kwargs pool w) =
  match ensure_rendering_input E self w with
  | (inl _, w1) => w1
  | (inr self1, w1) => (render_setup self1 page_indices n_processes w1).2
  end.
Proof.
  unfold _render_base.
  destruct (ensure_rendering_input E self w) as [[e|self1] w1]; [done|].
  destruct (render_setup self1 page_indices n_processes w1) as [[e|l] w2]; [done|].
  simpl. by destruct (consume _ _ _).
Qed.

Lemma render_base_self (self : PdfDocument) renderer_name page_indices
    n_processes (kwargs : Kwargs) pool w :
  run_self (_render_base E self renderer_name page_indices n_processes kwargs pool w) =
  match ensure_rendering_input E self w with
  | (inl _, _) => self
  | (inr self1, _) => self1
  end.
Proof.
  unfold _render_base.
  destruct (ensure_rendering_input E self w) as [[e|self1] w1]; [done|].
  destruct (render_setup self1 page_indices n_processes w1) as [[e|l] w2]; [done|].
  simpl. by destruct (consume _ _ _).
Qed.

(** C9.  An explicit but empty index sequence is treated exactly like
    no sequence: the two runs are equal; the indices used are the full
    range [0, page_count); and when the set-up goes through, one task
    per page of the document is submitted, in page order. *)
Theorem render_empty_indices_means_all (self : PdfDocument)
    (renderer_name : string) (n_processes : option Z) (kwargs : Kwargs)
    (pool : Pool) (w : World) :
  _render_base E self renderer_name (Some []) n_processes kwargs pool w =
    _render_base E self renderer_name None n_processes kwargs pool w ∧
  (∀ n_pages : Z,
     effective_indices n_pages (Some []) = py_range n_pages ∧
     ∀ i, i ∈ py_range n_pages ↔ 0 ≤ i < n_pages) ∧
  (∀ self1 w1 d,
     ensure_rendering_input E self w = (inr self1, w1) →
     w_docs w !! _pdf self = Some d →
     pool_size_ok n_processes →
     submitted (run_world
       (_render_base E self renderer_name (Some []) n_processes kwargs pool w)) =
     submitted w ++ py_range (Z.of_nat (length (d_pages d)))).
Proof.
  split; [reflexivity|]. split.
  { intros n_pages. split; [reflexivity|]. intros i. apply py_range_elem. }
  intros self1 w1 d Hready Hd Hpool.
  destruct (ensure_rendering_input_pdf _ _ _ _ Hready) as (Hpdf & _).
  pose proof (ensure_rendering_input_handles self w) as (Hdocs & _ & _ & Hsub).
  rewrite Hready in Hdocs, Hsub. simpl in Hdocs, Hsub.
  assert (Hd1 : w_docs w1 !! _pdf self1 = Some d) by by rewrite Hpdf, Hdocs.
  rewrite render_base_world, Hready.
  rewrite (render_setup_spec self1 (Some []) n_processes d w1 Hd1).
  change (effective_indices _ (Some [])) with (py_range (Z.of_nat (length (d_pages d)))).
  rewrite py_range_in_bounds.
  assert (Hnew : pool_new n_processes w1 = (inr tt, w1)).
  { unfold pool_new. destruct n_processes as [k|]; [|done]. simpl in Hpool.
    by destruct (Z.leb_spec k 0); [lia|]. }
  rewrite Hnew. cbv beta iota. cbn [snd].
  by rewrite submitted_submit_all, Hsub.
Qed.

(** *** Concurrent rendering: input readiness *)

(** C5.  For a document whose original input is an open buffer and that
    has no rendering input yet, the readiness step stores the whole
    content of the buffer as the rendering input and leaves every buffer
    object, this one with its cursor included, as it found it; the same
    holds of the buffers after the whole rendering operation. *)
Theorem buffer_snapshot_restores_cursor (self : PdfDocument) (b : nat)
    (buf : Buffer) (w : World) :
  _orig_input self = InBuffer b →
  _rendering_input self = None →
  w_buffers w !! b = Some buf →
  b_closed buf = false →
  ∃ w1,
    ensure_rendering_input E self w =
      (inr (set_rendering_input self (InBytes (b_data buf))), w1) ∧
    w_buffers w1 = w_buffers w ∧
    w_buffers w1 !! b = Some (mkBuffer (b_data buf) (b_pos buf) false) ∧
    ∀ renderer_name page_indices n_processes (kwargs : Kwargs) pool,
      let r := _render_base E self renderer_name page_indices n_processes kwargs pool w in
      _rendering_input (run_self r) = Some (InBytes (b_data buf)) ∧
      w_buffers (run_world r) = w_buffers w.
Proof.
  intros Horig Hnone Hb Hopen.
  destruct buf as [data pos closed]. simpl in *. subst closed.
  assert (Hrun : ∃ w1, ensure_rendering_input E self w =
      (inr (set_rendering_input self (InBytes data)), w1) ∧ w_buffers w1 = w_buffers w).
  { unfold ensure_rendering_input, buf_tell, buf_seek, buf_read.
    rewrite Hnone, Horig. py_unfold.
    repeat (rewrite ?Hb, ?lookup_insert_eq; simpl).
    eexists. split; [reflexivity|]. simpl.
    rewrite !insert_insert_eq. by apply insert_id. }
  destruct Hrun as (w1 & Hrun & Hbufs). exists w1.
  split; [done|]. split; [done|]. split; [by rewrite Hbufs|].
  intros renderer_name page_indices n_processes kwargs pool.
  rewrite render_base_self, render_base_world, Hrun. split; [done|].
  by rewrite render_setup_buffers.
Qed.

(** *** Concurrent rendering: the pool and the loop *)

Lemma process_page_index index renderer_name input_data password file_access
    (kwargs : Kwargs) w y j w' :
  _process_page E index renderer_name input_data password file_access kwargs w
    = (inr (y, j), w') →
  j = index.
Proof.
  unfold _process_page, bind, ret. intros H.
  repeat (case_match; simplify_eq/=). done.
Qed.

Lemma complete_fold_lookup (fn : Z → Py (Payload * Z)) pool tasks
    (schedule : list nat) (futures : gmap nat task_result) k :
  foldl (complete fn pool tasks) futures schedule !! k =
  if decide (k ∈ schedule ∧ is_Some (tasks !! k))
  then worker_result fn pool tasks k
  else futures !! k.
Proof.
  revert futures. induction schedule as [|s schedule IH]; intros futures;
    cbn [foldl].
  - case_decide as H; [|done]. destruct H as [H _]. by apply elem_of_nil in H.
  - rewrite IH. clear IH. unfold complete, worker_result.
    destruct (tasks !! k) as [t|] eqn:Htk; simpl.
    + destruct (decide (k ∈ schedule)) as [Hin|Hnin].
      * rewrite !decide_True; [done|split; [set_solver|by eauto]..].
      * rewrite (decide_False (P:=k ∈ schedule ∧ _)) by naive_solver.
        destruct (decide (k = s)) as [->|Hne].
        -- rewrite decide_True by (split; [set_solver|by eauto]).
           by rewrite Htk, lookup_insert_eq.
        -- rewrite decide_False by set_solver.
           destruct (tasks !! s); [by rewrite lookup_insert_ne|done].
    + rewrite !decide_False by (by intros [_ [? ?]]).
      destruct (tasks !! s) eqn:Hs; [|done].
      rewrite lookup_insert_ne; [done|]. intros ->. congruence.
Qed.

Lemma run_workers_complete (fn : Z → Py (Payload * Z)) pool tasks k :
  pool_schedule pool ≡ₚ seq 0 (length tasks) →
  run_workers fn pool tasks !! k = worker_result fn pool tasks k.
Proof.
  intros Hperm. unfold run_workers. rewrite complete_fold_lookup, lookup_empty.
  case_decide as H; [done|]. unfold worker_result.
  destruct (tasks !! k) as [t|] eqn:Ht; [|done]. exfalso. apply H.
  split; [|by eauto]. rewrite Hperm. apply elem_of_seq.
  apply lookup_lt_Some in Ht. lia.
Qed.

Lemma pool_map_in_order (fn : Z → Py (Payload * Z)) pool tasks :
  pool_schedule pool ≡ₚ seq 0 (length tasks) →
  pool_map fn pool tasks = worker_result fn pool tasks <$> seq 0 (length tasks).
Proof.
  intros Hperm. unfold pool_map. apply list_fmap_ext.
  intros _ k _. by apply run_workers_complete.
Qed.

Lemma consume_in_order (l : list Z) (res : nat → option (task_result (Payload:=Payload))) :
  (∀ k t, l !! k = Some t → ∃ y, res k = Some (inr (y, t))) →
  ∀ m i, (i + m)%nat = length l →
  ∃ ys, consume l i (res <$> seq i m) = (ys, Returned) ∧
        length ys = m ∧
        ∀ j y, ys !! j = Some y →
               ∃ t, l !! (i + j)%nat = Some t ∧ res (i + j)%nat = Some (inr (y, t)).
Proof.
  intros Hres m. induction m as [|m IH]; intros i Hlen; csimpl.
  - exists []. rewrite Nat.add_0_r in Hlen. subst i. rewrite Nat.eqb_refl.
    split; [done|]. split; [done|]. intros j y Hj. by rewrite lookup_nil in Hj.
  - destruct (lookup_lt_is_Some_2 l i) as [t Ht]; [lia|].
    destruct (Hres i t Ht) as [y Hy]. rewrite Hy, Ht, Z.eqb_refl.
    destruct (IH (S i)) as (ys & Hc & Hlen' & Hys); [lia|].
    rewrite Hc. exists (y :: ys). split; [done|]. split; [by simpl; f_equal|].
    intros [|j] y' Hj; simpl in Hj.
    + simplify_eq. exists t. by rewrite Nat.add_0_r.
    + destruct (Hys j y' Hj) as (t' & ? & ?). exists t'.
      by replace (i + S j)%nat with (S i + j)%nat by lia.
Qed.

Lemma consume_mismatch (l : list Z) (stream : list (option (task_result (Payload:=Payload))))
    (i k : nat) y j expected :
  (∀ k', (k' < k)%nat →
     ∃ y' t', stream !! k' = Some (Some (inr (y', t'))) ∧ l !! (i + k')%nat = Some t') →
  stream !! k = Some (Some (inr (y, j))) →
  l !! (i + k)%nat = Some expected →
  j ≠ expected →
  (consume l i stream).2 = Raised AssertionError ∧
  length (consume l i stream).1 = k.
Proof.
  revert stream i. induction k as [|k IH]; intros stream i Hpre Hk Hexp Hne.
  - destruct stream as [|x stream]; [done|]. simpl in Hk. simplify_eq. simpl.
    rewrite Nat.add_0_r in Hexp. rewrite Hexp.
    by destruct (Z.eqb_spec j expected).
  - destruct stream as [|x stream]; [done|].
    destruct (Hpre 0%nat) as (y' & t' & Hx & Ht'); [lia|].
    simpl in Hx. simplify_eq. simpl. rewrite Nat.add_0_r in Ht'.
    rewrite Ht', Z.eqb_refl.
    destruct (IH stream (S i)) as [Ho Hl].
    + intros k' Hk'. destruct (Hpre (S k')) as (y2 & t2 & ? & ?); [lia|].
      exists y2, t2. split; [done|]. by replace (S i + k')%nat with (i + S k')%nat by lia.
    + done.
    + by replace (S i + k)%nat with (i + S k)%nat by lia.
    + done.
    + destruct (consume l (S i) stream) as [ys o]. simpl in *. by subst.
Qed.

Lemma forallb_in_bounds (n : Z) (l : list Z) :
  Forall (λ i, 0 ≤ i < n) l → forallb (index_in_bounds n) l = true.
Proof.
  rewrite Forall_forall. intros Hall. apply forallb_forall.
  intros i Hi%list_elem_of_In%Hall. unfold index_in_bounds.
  rewrite andb_true_iff. split; [apply Z.leb_le|apply Z.ltb_lt]; lia.
Qed.

Lemma pool_new_ok n_processes w :
  pool_size_ok n_processes → pool_new n_processes w = (inr tt, w).
Proof.
  unfold pool_new, pool_size_ok. destruct n_processes as [k|]; [|done].
  intros Hk. by destruct (Z.leb_spec k 0); [lia|].
Qed.

(** C1, as amended.  For a non-empty sequence [l] of valid page indices,
    with the rendering input in place, a pool of positive size, every
    task completing (in whatever order) and no worker raising: the
    generator returns normally after one task per index was submitted
    in the order of [l]; it yields exactly one result per index, and the
    [k]-th result is what the worker of the [k]-th task returned, whose
    returned index is [l !! k].  Whatever a stream delivers, the first
    position whose returned index differs from the expected one ends the
    loop with AssertionError after the matching results before it. *)
Theorem render_yields_in_request_order (self self1 : PdfDocument)
    (renderer_name : string) (l : list Z) (n_processes : option Z)
    (kwargs : Kwargs) (pool : Pool) (w w1 : World) (d : EDoc) :
  l ≠ [] →
  ensure_rendering_input E self w = (inr self1, w1) →
  w_docs w !! _pdf self = Some d →
  Forall (λ i, 0 ≤ i < Z.of_nat (length (d_pages d))) l →
  pool_size_ok n_processes →
  pool_schedule pool ≡ₚ seq 0 (length l) →
  (∀ k t, l !! k = Some t →
     ∃ y j, (invoke_renderer E self1 renderer_name kwargs t (pool_world pool k)).1
            = inr (y, j)) →
  let r := _render_base E self renderer_name (Some l) n_processes kwargs pool w in
  run_outcome r = Returned ∧
  submitted (run_world r) = submitted w ++ l ∧
  length (run_yielded r) = length l ∧
  (∀ k y, run_yielded r !! k = Some y →
     ∃ t, l !! k = Some t ∧
          (invoke_renderer E self1 renderer_name kwargs t (pool_world pool k)).1
          = inr (y, t)) ∧
  (∀ (stream : list (option (task_result (Payload:=Payload)))) k y j expected,
     (∀ k', (k' < k)%nat →
        ∃ y' t', stream !! k' = Some (Some (inr (y', t'))) ∧ l !! k' = Some t') →
     stream !! k = Some (Some (inr (y, j))) →
     l !! k = Some expected →
     j ≠ expected →
     (consume l 0 stream).2 = Raised AssertionError ∧
     length (consume l 0 stream).1 = k).
Proof.
  intros Hne Hready Hd Hvalid Hpool Hperm Hok r.
  destruct (ensure_rendering_input_pdf _ _ _ _ Hready) as (Hpdf & _).
  pose proof (ensure_rendering_input_handles self w) as (Hdocs & _ & _ & Hsub).
  rewrite Hready in Hdocs, Hsub. simpl in Hdocs, Hsub.
  assert (Hd1 : w_docs w1 !! _pdf self1 = Some d) by by rewrite Hpdf, Hdocs.
  assert (Hl : effective_indices (Z.of_nat (length (d_pages d))) (Some l) = l).
  { unfold effective_indices. by destruct l. }
  set (fn := invoke_renderer E self1 renderer_name kwargs) in *.
  destruct (consume_in_order l (worker_result fn pool l)) with (m := length l) (i := 0%nat)
    as (ys & Hc & Hlen & Hys); [|done|].
  { intros k t Ht. unfold worker_result. rewrite Ht. simpl.
    destruct (Hok k t Ht) as (y & j & Hy).
    destruct (fn t (pool_world pool k)) as [res w'] eqn:Hfn. simpl in Hy. subst res.
    apply process_page_index in Hfn. subst j. eauto. }
  assert (Hr : r = mkRun ys Returned self1 (submit_all l w1).2).
  { subst r. unfold _render_base. rewrite Hready.
    rewrite (render_setup_spec self1 (Some l) n_processes d w1 Hd1), Hl.
    rewrite (forallb_in_bounds _ _ Hvalid), (pool_new_ok _ _ Hpool).
    cbv beta iota. fold fn. by rewrite (pool_map_in_order fn pool l Hperm), Hc. }
  rewrite Hr. cbn [run_outcome run_world run_yielded]. split; [done|]. split.
  { by rewrite submitted_submit_all, Hsub. }
  split; [done|]. split.
  - intros k y Hk. destruct (Hys k y Hk) as (t & Ht & Hw). exists t. split; [done|].
    change (0 + k)%nat with k in Ht, Hw.
    unfold worker_result in Hw. rewrite Ht in Hw. simpl in Hw.
    by simplify_eq.
  - intros stream k y j expected Hpre Hk Hexp Hj.
    by apply (consume_mismatch l stream 0 k y j expected).
Qed.

(** *** The worker task *)

Ltac fresh_ld :=
  match goal with
  | |- context [fresh (w_ld ?w)] => pose proof (is_fresh (w_ld w)); set_solver
  end.

Ltac new_buffer_closed :=
  let Hb := fresh "Hb" in
  let Hnone := fresh "Hnone" in
  intros ? ? Hb Hnone; rewrite ?insert_insert_eq in Hb;
  first
    [ congruence
    | apply lookup_insert_Some in Hb as [[<- <-]|[? ?]]; [done|congruence] ].

(** C4, as amended.  When a worker-side rendering invocation returns,
    it returns the result with the index it was given, and what it
    acquired is released: no native document is open that was not open
    before, the open pages and the loader data are those from before,
    and every buffer object it created is closed. *)
Theorem process_page_releases_on_return (index : Z) (renderer_name : string)
    (input_data : Input) (password : option string) (file_access : FileAccessArg)
    (kwargs : Kwargs) (w w' : World) (y : Payload) (j : Z) :
  _process_page E index renderer_name input_data password file_access kwargs w
    = (inr (y, j), w') →
  j = index ∧
  w_docs w' ⊆ w_docs w ∧
  w_pages w' = w_pages w ∧
  w_ld w' = w_ld w ∧
  (∀ b buf, w_buffers w' !! b = Some buf → w_buffers w !! b = None →
            b_closed buf = true).
Proof.
  unfold _process_page, __init__, init_path, open_pdf, native_load, ld_new,
    get_page, _verify_index, __len__, FPDF_GetPageCount, FPDF_LoadPage,
    PdfPage_render_to, PdfPage_close, FPDF_ClosePage, close, FPDF_CloseDocument,
    ld_close, live_doc, buf_new, buf_read, buf_close.
  py_unfold. intros H.
  repeat (case_match; simplify_eq/=); try done.
  all: split; [done|].
  all: split;
    [first [by rewrite delete_insert_dom by apply is_fresh | apply delete_subseteq]|].
  all: split; [by rewrite delete_insert_dom by apply is_fresh|].
  all: split; [first [done|fresh_ld]|].
  all: new_buffer_closed.
Qed.

(** *** Inserting a page *)

Lemma clamp_index_le (index : Z) (n : nat) : (clamp_index index (Z.of_nat n) ≤ n)%nat.
Proof. unfold clamp_index. lia. Qed.

(** C7.  On a live document of [n] pages, [new_page] returns a page for
    every index argument, never an error: the blank page is inserted at
    the position obtained by clamping the index to [0, n]; no index and
    an index of [n] or more give position [n], the end. *)
Theorem new_page_clamps_index (self : PdfDocument) (width height : float)
    (index : option Z) (d : EDoc) (w : World) :
  w_docs w !! _pdf self = Some d →
  let n := length (d_pages d) in
  let k := clamp_index (default (Z.of_nat n) index) (Z.of_nat n) in
  let pages' := take k (d_pages d) ++ mkPage width height :: drop k (d_pages d) in
  ∃ page w',
    new_page self width height index w = (inr page, w') ∧
    page_is_open w' page ∧
    w_docs w' !! _pdf self = Some (mkEDoc pages' (d_outline d)) ∧
    (0 ≤ k ≤ n)%nat ∧
    pages' !! k = Some (mkPage width height) ∧
    (index = None → pages' = d_pages d ++ [mkPage width height]) ∧
    (∀ i, index = Some i → Z.of_nat n ≤ i →
          pages' = d_pages d ++ [mkPage width height]) ∧
    (∀ i, index = Some i → i ≤ 0 → pages' = mkPage width height :: d_pages d) ∧
    (∀ i, index = Some i → 0 ≤ i ≤ Z.of_nat n → k = Z.to_nat i).
Proof.
  intros Hd n k pages'.
  assert (Hk : (k ≤ n)%nat) by apply clamp_index_le.
  assert (Hend : k = n → pages' = d_pages d ++ [mkPage width height]).
  { intros Hkn. unfold pages'. rewrite Hkn. unfold n.
    by rewrite firstn_all, drop_all. }
  eexists _, _. split.
  { unfold new_page, FPDFPage_New, live_doc. unfold bind at 1.
    assert (Hidx : match index with Some i => ret i | None => __len__ self end w
                   = (inr (default (Z.of_nat n) index), w)).
    { destruct index; [done|]. by rewrite (len_spec self d w Hd). }
    rewrite Hidx. py_unfold. rewrite Hd. simpl. reflexivity. }
  split. { unfold page_is_open. simpl. rewrite lookup_insert_eq. by eexists. }
  split. { simpl. by rewrite lookup_insert_eq. }
  split; [lia|]. split.
  { unfold pages'. rewrite lookup_app_r by (rewrite length_take; lia).
    rewrite length_take. replace (k - k `min` length (d_pages d))%nat with 0%nat; [done|].
    fold n. lia. }
  split. { intros ->. apply Hend. unfold k, clamp_index. simpl. lia. }
  split. { intros i -> Hi. apply Hend. unfold k, clamp_index. simpl. lia. }
  split.
  { intros i -> Hi.
    assert (Hk0 : k = 0%nat) by (unfold k, clamp_index; simpl; lia).
    unfold pages'. rewrite Hk0. by rewrite take_0, drop_0. }
  intros i -> Hi. unfold k, clamp_index. simpl. lia.
Qed.

(** *** The outline reader *)

Lemma toc_inv_nil max_depth lvl seen n : toc_inv max_depth lvl seen (mkToc [] seen n).
Proof.
  unfold toc_inv. simpl. split; [set_solver|]. split; [apply NoDup_nil_2|].
  split; [by intros a Hin%elem_of_nil|by intros a l Hin%elem_of_nil].
Qed.

Lemma toc_inv_step max_depth lvl seen b sub rest :
  b ∉ seen →
  lvl < max_depth →
  toc_inv max_depth (lvl + 1) ({[b]} ∪ seen) sub →
  toc_inv max_depth lvl (toc_seen sub) rest →
  toc_inv max_depth lvl seen
    (mkToc ((b, lvl) :: toc_visits sub ++ toc_visits rest) (toc_seen rest)
           (toc_warnings sub + toc_warnings rest)).
Proof.
  intros Hb Hlvl (Hs1 & Hnd1 & Hnew1 & Hl1) (Hs2 & Hnd2 & Hnew2 & Hl2).
  unfold toc_inv. simpl. rewrite fmap_app, list_to_set_app_L.
  split; [rewrite Hs2, Hs1; set_solver|]. split.
  { apply NoDup_cons. split.
    - rewrite elem_of_app. intros [Hin|Hin].
      + apply Hnew1 in Hin. set_solver.
      + apply Hnew2 in Hin. rewrite Hs1 in Hin. set_solver.
    - apply NoDup_app. split; [done|]. split; [|done].
      intros a Ha1 Ha2. apply Hnew2 in Ha2. rewrite Hs1 in Ha2.
      apply Ha2. apply elem_of_union_r. by apply elem_of_list_to_set. }
  split.
  { intros a. rewrite elem_of_cons, elem_of_app. intros [->|[Hin|Hin]]; [done|..].
    - apply Hnew1 in Hin. set_solver.
    - apply Hnew2 in Hin. rewrite Hs1 in Hin. set_solver. }
  intros a l. rewrite elem_of_cons, elem_of_app. intros [Heq|[Hin|Hin]].
  - simplify_eq. lia.
  - apply Hl1 in Hin. lia.
  - by apply Hl2 in Hin.
Qed.

Lemma toc_sound g max_depth fuel :
  (∀ parent lvl seen r,
     get_toc_rec fuel g max_depth parent lvl seen = Some r →
     toc_inv max_depth lvl seen r) ∧
  (∀ lvl bookmark seen r,
     lvl < max_depth →
     toc_while fuel g max_depth lvl bookmark seen = Some r →
     toc_inv max_depth lvl seen r).
Proof.
  induction fuel as [|fuel [IHrec IHwhile]]; [done|]. split.
  - intros parent lvl seen r. simpl.
    destruct (Z.geb_spec lvl max_depth) as [Hge|Hlt].
    + intros [= <-]. apply toc_inv_nil.
    + by apply IHwhile.
  - intros lvl bookmark seen r Hlvl. simpl.
    destruct bookmark as [b|]; [|intros [= <-]; apply toc_inv_nil].
    destruct (decide (b ∈ seen)) as [Hin|Hnin]; [intros [= <-]; apply toc_inv_nil|].
    destruct (get_toc_rec fuel g max_depth (Some b) (lvl + 1) ({[b]} ∪ seen))
      as [sub|] eqn:Hsub; [|done]. simpl.
    destruct (toc_while fuel g max_depth lvl (next_sibling g b) (toc_seen sub))
      as [rest|] eqn:Hrest; [|done]. simpl.
    intros [= <-]. apply toc_inv_step; eauto.
Qed.

Lemma first_child_node g parent b : first_child g parent = Some b → b ∈ toc_nodes g.
Proof.
  unfold first_child, toc_nodes. destruct parent as [a|]; intros H.
  - apply elem_of_union_l, elem_of_union_r, elem_of_map_img. eauto.
  - rewrite H. simpl. set_solver.
Qed.

Lemma next_sibling_node g a b : next_sibling g a = Some b → b ∈ toc_nodes g.
Proof.
  unfold next_sibling, toc_nodes. intros H.
  apply elem_of_union_r, elem_of_map_img. eauto.
Qed.

Lemma toc_left_mono g seen seen' : seen ⊆ seen' → (toc_left g seen' ≤ toc_left g seen)%nat.
Proof. intros Hsub. apply subseteq_size. set_solver. Qed.

Lemma toc_left_add g seen b :
  b ∈ toc_nodes g → b ∉ seen → (toc_left g ({[b]} ∪ seen) < toc_left g seen)%nat.
Proof.
  intros Hb Hnin. apply subset_size. split; [set_solver|].
  intros Hsub. assert (b ∈ toc_nodes g ∖ ({[b]} ∪ seen)) by set_solver. set_solver.
Qed.

Lemma toc_total g max_depth fuel :
  (∀ parent lvl seen,
     (2 * toc_left g seen + 2 ≤ fuel)%nat →
     is_Some (get_toc_rec fuel g max_depth parent lvl seen)) ∧
  (∀ lvl bookmark seen,
     lvl < max_depth →
     (∀ b, bookmark = Some b → b ∈ toc_nodes g) →
     (2 * toc_left g seen + 1 ≤ fuel)%nat →
     is_Some (toc_while fuel g max_depth lvl bookmark seen)).
Proof.
  induction fuel as [|fuel [IHrec IHwhile]]; [split; intros; lia|]. split.
  - intros parent lvl seen Hfuel. simpl.
    destruct (Z.geb_spec lvl max_depth) as [Hge|Hlt]; [by eexists|].
    apply IHwhile; [done|by apply first_child_node|lia].
  - intros lvl bookmark seen Hlvl Hnode Hfuel. simpl.
    destruct bookmark as [b|]; [|by eexists].
    destruct (decide (b ∈ seen)) as [Hin|Hnin]; [by eexists|].
    pose proof (toc_left_add g seen b (Hnode b eq_refl) Hnin) as Hless.
    destruct (IHrec (Some b) (lvl + 1) ({[b]} ∪ seen)) as [sub Hsub]; [lia|].
    rewrite Hsub. simpl.
    destruct (proj1 (toc_sound g max_depth fuel) _ _ _ _ Hsub) as (Hseen & _).
    assert (Hmono : (toc_left g (toc_seen sub) ≤ toc_left g ({[b]} ∪ seen))%nat).
    { apply toc_left_mono. rewrite Hseen. set_solver. }
    destruct (IHwhile lvl (next_sibling g b) (toc_seen sub)) as [rest Hrest];
      [done|by apply next_sibling_node|lia|].
    rewrite Hrest. by eexists.
Qed.

Lemma toc_fuel_mono g max_depth fuel :
  (∀ fuel' parent lvl seen r,
     get_toc_rec fuel g max_depth parent lvl seen = Some r → (fuel ≤ fuel')%nat →
     get_toc_rec fuel' g max_depth parent lvl seen = Some r) ∧
  (∀ fuel' lvl bookmark seen r,
     toc_while fuel g max_depth lvl bookmark seen = Some r → (fuel ≤ fuel')%nat →
     toc_while fuel' g max_depth lvl bookmark seen = Some r).
Proof.
  induction fuel as [|fuel [IHrec IHwhile]]; [done|]. split.
  - intros [|fuel'] parent lvl seen r Hr Hle; [lia|]. simpl in *.
    destruct (lvl >=? max_depth); [done|]. apply IHwhile; [done|lia].
  - intros [|fuel'] lvl bookmark seen r Hr Hle; [lia|]. simpl in *.
    destruct bookmark as [b|]; [|done].
    destruct (decide (b ∈ seen)); [done|].
    destruct (get_toc_rec fuel g max_depth (Some b) (lvl + 1) ({[b]} ∪ seen))
      as [sub|] eqn:Hsub; [|done].
    rewrite (IHrec fuel' _ _ _ _ Hsub) by lia. simpl in *.
    destruct (toc_while fuel g max_depth lvl (next_sibling g b) (toc_seen sub))
      as [rest|] eqn:Hrest; [|done].
    by rewrite (IHwhile fuel' _ _ _ _ Hrest) by lia.
Qed.

Lemma warnings_logged (e : Event) (n a : nat) w :
  w_log (foldl (λ w _, add_event e w) w (seq a n)) = w_log w ++ replicate n e.
Proof.
  revert a w. induction n as [|n IH]; intros a w; simpl.
  - by rewrite app_nil_r.
  - rewrite IH. simpl. by rewrite <-app_assoc.
Qed.

(** C6.  On a live document, whatever its bookmark pointers look like,
    [get_toc] returns: the traversal has a result within the fuel
    computed from the graph, and the same result with any more fuel.
    The items come from the nodes visited, in order; the seen-set ends
    as the initial one plus the visited addresses; no address is visited
    twice nor was seen before; every level lies between the start level
    and [max_depth]; one warning is logged per repeat found.  A node
    already seen ends its sibling loop with no item and one warning.
    The cycle [10 -> 20 -> 10] yields node 10, then node 20, and stops
    with one warning. *)
Theorem get_toc_terminates (self : PdfDocument) (max_depth : Z)
    (parent : option nat) (lvl : Z) (seen : option (gset nat))
    (d : EDoc) (w : World) :
  w_docs w !! _pdf self = Some d →
  let g := d_outline d in
  let seen0 := default ∅ seen in
  ∃ r,
    get_toc_rec (toc_fuel g) g max_depth parent lvl seen0 = Some r ∧
    (∀ fuel, (toc_fuel g ≤ fuel)%nat →
       get_toc_rec fuel g max_depth parent lvl seen0 = Some r) ∧
    (get_toc self max_depth parent lvl seen w).1 =
      inr ((λ '(b, l), _get_bookmark g b l) <$> toc_visits r) ∧
    w_log (get_toc self max_depth parent lvl seen w).2 =
      w_log w ++ replicate (toc_warnings r) (Warning toc_warning) ∧
    toc_seen r = seen0 ∪ list_to_set (toc_visits r).*1 ∧
    NoDup (toc_visits r).*1 ∧
    (∀ a, a ∈ (toc_visits r).*1 → a ∉ seen0) ∧
    (∀ a l, (a, l) ∈ toc_visits r → lvl ≤ l < max_depth) ∧
    (∀ fuel b lvl' seen', b ∈ seen' →
       toc_while (S fuel) g max_depth lvl' (Some b) seen' = Some (mkToc [] seen' 1)) ∧
    (let c := get_toc_rec (toc_fuel cyclic_outline) cyclic_outline 15 None 0 ∅ in
     toc_visits <$> c = Some [(10%nat, 0); (20%nat, 1)] ∧
     toc_warnings <$> c = Some 1%nat).
Proof.
  intros Hd g seen0.
  destruct (proj1 (toc_total g max_depth (toc_fuel g)) parent lvl seen0) as [r Hr].
  { unfold toc_fuel, toc_left.
    assert (size (toc_nodes g ∖ seen0) ≤ size (toc_nodes g))%nat
      by (apply subseteq_size; set_solver).
    lia. }
  destruct (proj1 (toc_sound g max_depth (toc_fuel g)) _ _ _ _ Hr)
    as (Hseen & Hnd & Hnew & Hlvl).
  exists r. split; [done|]. split.
  { intros fuel Hfuel. by apply (proj1 (toc_fuel_mono g max_depth (toc_fuel g))). }
  assert (Hrun : get_toc self max_depth parent lvl seen w =
    (inr ((λ '(b, l), _get_bookmark g b l) <$> toc_visits r),
     foldl (λ w _, add_event (Warning toc_warning) w) w (seq 0 (toc_warnings r)))).
  { unfold get_toc, live_doc. py_unfold. rewrite Hd. simpl.
    fold g. fold seen0. by rewrite Hr. }
  rewrite Hrun. simpl. split; [done|]. split; [apply warnings_logged|].
  do 4 (split; [done|]). split.
  { intros fuel b lvl' seen' Hb. simpl. by rewrite decide_True. }
  split; by vm_compute.
Qed.

End Properties.

(** * The properties at concrete inputs *)

(** C3.  Closing a document does not close the pages obtained from it:
    after opening a three-page document, loading its three pages and
    closing the document, the document handle is gone and the three page
    handles are still open. *)
Theorem close_leaves_pages_open :
  match load_pages_then_close sample_engine [x01; x01; x01] empty_world with
  | (inr pages, w) =>
      page_raw <$> pages = [0; 1; 2]%nat ∧
      w_docs w = ∅ ∧
      Forall (page_is_open w) pages
  | (inl _, _) => False
  end.
Proof.
  vm_compute. split; [reflexivity|]. split; [reflexivity|].
  repeat constructor; by eexists.
Qed.

Lemma save_rejects_unwritable_witness :
  callable_write (mkOut NoAttr 0) = false ∧
  save sample_engine sample_pdf (mkOut NoAttr 0) None sample_world
  = (inl ValueError, sample_world).
Proof.
  split; [reflexivity|].
  apply (save_rejects_unwritable sample_engine). reflexivity.
Defined.

Lemma render_out_of_bounds_fails_fast_witness :
  let r := _render_base sample_engine sample_pdf "bytes" (Some [0; 5]) (Some 2) 1
             sample_pool sample_world in
  run_outcome r = Raised ValueError ∧
  run_yielded r = [] ∧
  run_world r = sample_world ∧
  submitted (run_world r) = submitted sample_world.
Proof.
  apply (render_out_of_bounds_fails_fast sample_engine sample_pdf
           (set_rendering_input sample_pdf (InBytes [x01; x01]))
           "bytes" [0; 5] (Some 2) 1 sample_pool sample_world sample_world
           (sample_doc 2) 5).
  - reflexivity.
  - reflexivity.
  - repeat constructor.
  - simpl. lia.
Defined.

Lemma render_empty_indices_means_all_witness :
  submitted (run_world (_render_base sample_engine sample_pdf "bytes" (Some [])
                          (Some 2) 1 sample_pool sample_world)) =
  submitted sample_world ++ py_range 2.
Proof.
  apply (proj2 (proj2 (render_empty_indices_means_all sample_engine sample_pdf
                         "bytes" (Some 2) 1 sample_pool sample_world))
           (set_rendering_input sample_pdf (InBytes [x01; x01])) sample_world
           (sample_doc 2)).
  - reflexivity.
  - reflexivity.
  - simpl. lia.
Defined.

Lemma buffer_snapshot_restores_cursor_witness :
  ∃ w1,
    ensure_rendering_input sample_engine buffer_pdf buffer_world =
      (inr (set_rendering_input buffer_pdf (InBytes [x01; x01; x01])), w1) ∧
    w_buffers w1 = w_buffers buffer_world ∧
    w_buffers w1 !! 0%nat = Some (mkBuffer [x01; x01; x01] 2 false) ∧
    ∀ renderer_name page_indices n_processes (kwargs : Z) pool,
      let r := _render_base sample_engine buffer_pdf renderer_name page_indices
                 n_processes kwargs pool buffer_world in
      _rendering_input (run_self r) = Some (InBytes [x01; x01; x01]) ∧
      w_buffers (run_world r) = w_buffers buffer_world.
Proof.
  apply (buffer_snapshot_restores_cursor sample_engine buffer_pdf 0
           (mkBuffer [x01; x01; x01] 2 false) buffer_world); reflexivity.
Defined.

(** C1, as stated, fails on the empty sequence: its indices are all
    valid, none is requested, and two results are yielded. *)
Lemma render_empty_sequence_yields_all_pages :
  let requested : list Z := [] in
  let r := _render_base sample_engine sample_pdf "bytes" (Some requested) (Some 2) 1
             sample_pool sample_world in
  Forall (λ i, 0 ≤ i < 2) requested ∧
  run_outcome r = Returned ∧
  run_yielded r = [[x02]; [x02; x02]] ∧
  length (run_yielded r) ≠ length requested.
Proof.
  split; [constructor|]. split; [by vm_compute|]. split; [by vm_compute|].
  by vm_compute.
Qed.

Lemma render_yields_in_request_order_witness :
  let r := _render_base sample_engine sample_pdf "bytes" (Some [1; 0]) (Some 2) 1
             sample_pool sample_world in
  run_outcome r = Returned ∧
  submitted (run_world r) = submitted sample_world ++ [1; 0] ∧
  length (run_yielded r) = 2%nat.
Proof.
  pose proof (render_yields_in_request_order sample_engine sample_pdf
           (set_rendering_input sample_pdf (InBytes [x01; x01]))
           "bytes" [1; 0] (Some 2) 1 sample_pool sample_world sample_world
           (sample_doc 2)) as H.
  destruct H as (H1 & H2 & H3 & _).
  - discriminate.
  - reflexivity.
  - reflexivity.
  - repeat constructor; simpl; lia.
  - simpl. lia.
  - simpl. apply perm_swap.
  - intros [|[|k]] t Ht; simpl in Ht; [| |discriminate];
      injection Ht as <-; eexists _, _; vm_compute; reflexivity.
  - exact (conj H1 (conj H2 H3)).
Defined.

(** C4, as stated, fails when the render operation fails: the document
    and the page the invocation opened are both still open. *)
Lemma process_page_leaks_on_render_failure :
  let r := _process_page sample_engine 0 "bytes" (InBytes [x01; x01]) None
             (FA NATIVE) 0 empty_world in
  r.1 = inl PdfiumError ∧
  w_docs empty_world !! 0%nat = None ∧
  w_docs r.2 !! 0%nat = Some (sample_doc 2) ∧
  w_pages empty_world !! 0%nat = None ∧
  w_pages r.2 !! 0%nat = Some (0%nat, 0%nat).
Proof. repeat split; by vm_compute. Qed.

Lemma process_page_releases_on_return_witness :
  _process_page sample_engine 0 "bytes" (InBytes [x01; x01]) None (FA NATIVE) 1
                empty_world = (inr ([x02], 0), empty_world) ∧
  w_docs empty_world ⊆ w_docs empty_world ∧
  w_pages empty_world = w_pages empty_world.
Proof.
  assert (H : _process_page sample_engine 0 "bytes" (InBytes [x01; x01]) None
                (FA NATIVE) 1 empty_world = (inr ([x02], 0), empty_world))
    by (vm_compute; reflexivity).
  split; [exact H|].
  destruct (process_page_releases_on_return sample_engine 0 "bytes"
              (InBytes [x01; x01]) None (FA NATIVE) 1 empty_world empty_world
              [x02] 0 H) as (_ & Hdocs & Hpages & _).
  exact (conj Hdocs Hpages).
Defined.

Lemma new_page_clamps_index_witness :
  w_docs sample_world !! _pdf sample_pdf = Some (sample_doc 2) ∧
  ∃ page w',
    new_page sample_pdf 100 200 (Some 7) sample_world = (inr page, w') ∧
    w_docs w' !! 0%nat =
      Some (mkEDoc [mkPage 595 842; mkPage 595 842; mkPage 100 200]
                   (d_outline (sample_doc 2))).
Proof.
  split; [reflexivity|].
  destruct (new_page_clamps_index sample_pdf 100 200 (Some 7) (sample_doc 2)
              sample_world eq_refl) as (page & w' & Hrun & _ & Hdoc & _).
  exists page, w'. split; [exact Hrun|exact Hdoc].
Defined.

Lemma get_toc_terminates_witness :
  w_docs cyclic_world !! _pdf sample_pdf =
    Some (mkEDoc [mkPage 595 842] cyclic_outline) ∧
  ∃ r,
    get_toc_rec (toc_fuel cyclic_outline) cyclic_outline 15 None 0 ∅ = Some r ∧
    NoDup (toc_visits r).*1.
Proof.
  split; [reflexivity|].
  destruct (get_toc_terminates sample_pdf 15 None 0 None
              (mkEDoc [mkPage 595 842] cyclic_outline) cyclic_world eq_refl)
    as (r & Hr & _ & _ & _ & _ & Hnd & _).
  exists r. split; [exact Hr|exact Hnd].
Defined.
